(** * Scalar field expressions of fdaPDE-core

    A shallow embedding of [fdaPDE/fields/scalar_expressions.h] and
    [fdaPDE/utils/assert.h].  The C++ expression templates encode the
    expression tree in the type of the root node; here the same tree is a
    value of the inductive type [ScalarExpr], one constructor per node
    class, each carrying the data members of that class.  The template
    parameter [N] (the base space dimension, possibly [Dynamic]) is an
    explicit argument of every operation that depends on it.

    [double] is the binary64 type of [PrimFloat]; [int] values are never
    computed with, only stored and compared, and are integers of [Z]. *)

From Stdlib Require Import ZArith List String Bool Lia PrimFloat.
From Stdlib Require Import FloatOps FloatAxioms.
Import ListNotations.
Local Open Scope Z_scope.

(** Decimal literals of type [double] denote, as in C++, the binary64 value
    closest to them. *)
#[local] Set Warnings "-inexact-float".

(** ** Outcomes of a call

    A call either returns, or leaves through a [std::runtime_error] carrying
    its [what()] string, or has no defined behaviour (a read through a
    pointer that was never set, or outside of the table it points to). *)

Inductive outcome (A : Type) : Type :=
| Returns (a : A)
| Throws (what : string)
| Undefined.

Arguments Returns {A} a.
Arguments Throws {A} what.
Arguments Undefined {A}.

Definition bind {A B : Type} (c : outcome A) (k : A -> outcome B) : outcome B :=
  match c with
  | Returns a => k a
  | Throws w => Throws w
  | Undefined => Undefined
  end.

Declare Scope outcome_scope.
Delimit Scope outcome_scope with outcome.
Notation "x <- c ;; k" := (bind c (fun x => k))
  (at level 61, c at next level, right associativity) : outcome_scope.
Notation "c ;;; k" := (bind c (fun _ => k))
  (at level 61, right associativity) : outcome_scope.
Local Open Scope outcome_scope.

(** [lift1] and [lift2] apply a total function to the results of one or two
    calls, the first call being made first. *)
Definition lift1 {A B : Type} (f : A -> B) (c : outcome A) : outcome B :=
  x <- c ;; Returns (f x).

Definition lift2 {A B C : Type} (f : A -> B -> C)
  (c1 : outcome A) (c2 : outcome B) : outcome C :=
  x <- c1 ;; y <- c2 ;; Returns (f x y).

(** ** assert.h *)

(** [fdapde_assert(condition)]: the macro stringifies its argument, which
    is passed here next to its truth value. *)
Definition fdapde_assert (condition : bool) (text : string) : outcome unit :=
  if condition then Returns tt
  else Throws ("Condition " ++ text ++ " failed")%string.

(** ** Symbols taken from outside of the two headers *)

(** Modelled from the spec: the sentinel [Dynamic] of [utils/symbols.h]
    (Eigen's [Dynamic]), which is not among the sources; the spec only says
    that it is a sentinel distinct from every fixed positive arity. *)
Definition Dynamic : Z := -1.

(** [static_dynamic_vector_selector<N>::type]: an [SVector<N>] or a
    [DVector<double>]; in both cases a column of doubles.  For a static [N]
    the C++ type fixes the number of rows to [N]. *)
Definition VectorType : Type := list float.

Definition rows (p : VectorType) : Z := Z.of_nat (List.length p).

(** Modelled from the spec: [DMatrix<double, Eigen::RowMajor>] of
    [utils/symbols.h], the externally owned table of a discretized field, of
    which only the access [matrix(i, 0)] is used: a list of rows. *)
Definition MatrixType : Type := list (list float).

(** [matrix(i, j)]; an index outside of the table is not a defined read. *)
Definition coeff (m : MatrixType) (i j : Z) : outcome float :=
  if (0 <=? i) && (0 <=? j) then
    match nth_error m (Z.to_nat i) with
    | Some row =>
        match nth_error row (Z.to_nat j) with
        | Some v => Returns v
        | None => Undefined
        end
    | None => Undefined
    end
  else Undefined.

(** The tables live outside of the expression: a leaf holds an address, and
    the memory maps the addresses in use to the tables stored there. *)
Definition address : Type := nat.
Definition memory : Type := address -> option MatrixType.

(** [data_->operator()(i, j)] for a [MatrixType* data_]; [None] is the
    pointer that the defaulted constructor leaves unset. *)
Definition deref_coeff (mem : memory) (data_ : option address) (i j : Z)
  : outcome float :=
  match data_ with
  | Some a =>
      match mem a with
      | Some m => coeff m i j
      | None => Undefined
      end
  | None => Undefined
  end.

(** ** class ScalarExpr<N, E> *)

(** The data members of the base class. *)
Record ScalarExprBase : Type := {
  dynamic_inner_size_ : Z;   (* run-time base space dimension *)
  h_ : float                 (* step size used in derivative approximation *)
}.

(** The default member initializer of [h_]. *)
Definition default_step : float := 1e-3%float.

(** [ScalarExpr() = default] *)
Definition ScalarExprBase_default : ScalarExprBase :=
  {| dynamic_inner_size_ := 0; h_ := default_step |}.

(** [ScalarExpr(int dynamic_inner_size)] *)
Definition ScalarExprBase_ctor (dynamic_inner_size : Z) : ScalarExprBase :=
  {| dynamic_inner_size_ := dynamic_inner_size; h_ := default_step |}.

(** The node classes.  Every class declares [NestAsRef = 0] (or inherits it
    from [ScalarExpr]), so [internals::ref_select] stores each operand by
    value: a composite node owns a copy of its operands. *)
Inductive ScalarExpr : Type :=
| Scalar (base : ScalarExprBase) (value_ : float)
| DiscretizedScalarField (base : ScalarExprBase)
    (data_ : option address) (value_ : float)
| ScalarBinOp (base : ScalarExprBase) (op1_ op2_ : ScalarExpr)
    (f_ : float -> float -> float)
| ScalarUnOp (base : ScalarExprBase) (op_ : ScalarExpr) (f_ : float -> float)
| ScalarNegationOp (base : ScalarExprBase) (op_ : ScalarExpr).

Definition base_of (e : ScalarExpr) : ScalarExprBase :=
  match e with
  | Scalar base _ => base
  | DiscretizedScalarField base _ _ => base
  | ScalarBinOp base _ _ _ => base
  | ScalarUnOp base _ _ => base
  | ScalarNegationOp base _ => base
  end.

(** [get()]: the node seen at its own type. *)
Definition get (e : ScalarExpr) : ScalarExpr := e.

(** [inner_size()] *)
Definition inner_size (N : Z) (e : ScalarExpr) : Z :=
  if N =? Dynamic then dynamic_inner_size_ (base_of e) else N.

(** [step()] *)
Definition step (e : ScalarExpr) : float := h_ (base_of e).

(** The node with the members of its base class replaced. *)
Definition with_base (base : ScalarExprBase) (e : ScalarExpr) : ScalarExpr :=
  match e with
  | Scalar _ value_ => Scalar base value_
  | DiscretizedScalarField _ data_ value_ =>
      DiscretizedScalarField base data_ value_
  | ScalarBinOp _ op1_ op2_ f_ => ScalarBinOp base op1_ op2_ f_
  | ScalarUnOp _ op_ f_ => ScalarUnOp base op_ f_
  | ScalarNegationOp _ op_ => ScalarNegationOp base op_
  end.

(** [set_step(double h)] *)
Definition set_step (e : ScalarExpr) (h : float) : ScalarExpr :=
  with_base {| dynamic_inner_size_ := dynamic_inner_size_ (base_of e);
               h_ := h |} e.

(** [resize(int n)]: the member exists for [N == Dynamic] only; it writes
    the runtime dimension of the node it is called on, not of its operands. *)
Definition resize (N : Z) (e : ScalarExpr) (n : Z) : option ScalarExpr :=
  if N =? Dynamic
  then Some (with_base {| dynamic_inner_size_ := n; h_ := h_ (base_of e) |} e)
  else None.

(** ** Constructors of the node classes *)

(** [Scalar(double value, int n)] *)
Definition Scalar_ctor (value : float) (n : Z) : ScalarExpr :=
  Scalar (ScalarExprBase_ctor n) value.

(** [DiscretizedScalarField() = default]: [data_] is left unset, [value_]
    takes its default member initializer [0]. *)
Definition DiscretizedScalarField_default : ScalarExpr :=
  DiscretizedScalarField ScalarExprBase_default None 0%float.

(** [DiscretizedScalarField(MatrixType& data)] *)
Definition DiscretizedScalarField_ctor (data : address) : ScalarExpr :=
  DiscretizedScalarField ScalarExprBase_default (Some data) 0%float.

(** [ScalarBinOp(const OP1& op1, const OP2& op2, BinaryOperation f)] *)
Definition ScalarBinOp_ctor (N : Z) (op1 op2 : ScalarExpr)
  (f : float -> float -> float) : outcome ScalarExpr :=
  let this := ScalarBinOp (ScalarExprBase_ctor (inner_size N op1)) op1 op2 f in
  (if N =? Dynamic
   then fdapde_assert (inner_size N op1 =? inner_size N op2)
          "op1_.inner_size() == op2_.inner_size()"
   else Returns tt) ;;;
  Returns this.

(** [ScalarUnOp(const OP& op, UnaryOperation f, int n)] *)
Definition ScalarUnOp_ctor (op : ScalarExpr) (f : float -> float) (n : Z)
  : ScalarExpr :=
  ScalarUnOp (ScalarExprBase_ctor n) op f.

(** [ScalarNegationOp(const OP& op, int n)] *)
Definition ScalarNegationOp_ctor (op : ScalarExpr) (n : Z) : ScalarExpr :=
  ScalarNegationOp (ScalarExprBase_ctor n) op.

(** ** operator() *)

(** [ScalarExpr::operator()] calls [operator()] of the node class.  The two
    operand calls of a binary node are unsequenced in C++; the first operand
    is evaluated first here, and [evaluate_order] below shows that the other
    order gives the same outcome. *)
Fixpoint evaluate (N : Z) (e : ScalarExpr) (p : VectorType) : outcome float :=
  match e with
  | Scalar _ value_ => Returns value_
  | DiscretizedScalarField _ _ value_ => Returns value_
  | ScalarBinOp _ op1_ op2_ f_ =>
      (if N =? Dynamic
       then fdapde_assert (rows p =? inner_size N e)
              "p.rows() == Base::inner_size()"
       else Returns tt) ;;;
      x <- evaluate N op1_ p ;;
      y <- evaluate N op2_ p ;;
      Returns (f_ x y)
  | ScalarUnOp _ op_ f_ =>
      x <- evaluate N op_ p ;; Returns (f_ x)
  | ScalarNegationOp _ op_ =>
      x <- evaluate N op_ p ;; Returns (- x)%float
  end.

(** The same calls with the second operand of a binary node evaluated
    before the first, the other order that C++ allows. *)
Fixpoint evaluate_right_first (N : Z) (e : ScalarExpr) (p : VectorType)
  : outcome float :=
  match e with
  | Scalar _ value_ => Returns value_
  | DiscretizedScalarField _ _ value_ => Returns value_
  | ScalarBinOp _ op1_ op2_ f_ =>
      (if N =? Dynamic
       then fdapde_assert (rows p =? inner_size N e)
              "p.rows() == Base::inner_size()"
       else Returns tt) ;;;
      y <- evaluate_right_first N op2_ p ;;
      x <- evaluate_right_first N op1_ p ;;
      Returns (f_ x y)
  | ScalarUnOp _ op_ f_ =>
      x <- evaluate_right_first N op_ p ;; Returns (f_ x)
  | ScalarNegationOp _ op_ =>
      x <- evaluate_right_first N op_ p ;; Returns (- x)%float
  end.

(** ** forward *)

(** [forward] is a const member that writes the mutable [value_] of the
    discretized leaves and returns [*this]: the node after the call is the
    result.  [Scalar] and [ScalarUnOp] do not redefine [forward], so a call
    on them is the one of [ScalarExpr], which does nothing. *)
Fixpoint forward (mem : memory) (e : ScalarExpr) (i : Z) : outcome ScalarExpr :=
  match e with
  | Scalar _ _ => Returns e
  | DiscretizedScalarField base data_ _ =>
      v <- deref_coeff mem data_ i 0 ;;
      Returns (DiscretizedScalarField base data_ v)
  | ScalarBinOp base op1_ op2_ f_ =>
      op1' <- forward mem op1_ i ;;
      op2' <- forward mem op2_ i ;;
      Returns (ScalarBinOp base op1' op2' f_)
  | ScalarUnOp _ _ _ => Returns e
  | ScalarNegationOp base op_ =>
      op' <- forward mem op_ i ;;
      Returns (ScalarNegationOp base op')
  end.

(** The values held by the discretized leaves of a tree, left to right. *)
Fixpoint discretized_values (e : ScalarExpr) : list float :=
  match e with
  | Scalar _ _ => []
  | DiscretizedScalarField _ _ value_ => [value_]
  | ScalarBinOp _ op1_ op2_ _ =>
      discretized_values op1_ ++ discretized_values op2_
  | ScalarUnOp _ op_ _ => discretized_values op_
  | ScalarNegationOp _ op_ => discretized_values op_
  end.

(** ** The operator overload layer *)

(** [ScalarExpr::operator-()] *)
Definition operator_neg (e : ScalarExpr) : ScalarExpr :=
  ScalarNegationOp_ctor (get e) (dynamic_inner_size_ (base_of e)).

(** [DEFINE_SCALAR_BINARY_OPERATOR(OPERATOR, FUNCTOR)]: the three overloads
    that the macro defines for one operator symbol. *)
Section DEFINE_SCALAR_BINARY_OPERATOR.
Variable N : Z.
Variable FUNCTOR : float -> float -> float.

(** [OPERATOR(const ScalarExpr<N, E1>& op1, const ScalarExpr<N, E2>& op2)] *)
Definition binary_operator (op1 op2 : ScalarExpr) : outcome ScalarExpr :=
  ScalarBinOp_ctor N (get op1) (get op2) FUNCTOR.

(** [OPERATOR(const ScalarExpr<N, E>& op1, double op2)] *)
Definition binary_operator_double_right (op1 : ScalarExpr) (op2 : float)
  : outcome ScalarExpr :=
  ScalarBinOp_ctor N (get op1)
    (Scalar_ctor op2 (inner_size N (get op1))) FUNCTOR.

(** [OPERATOR(double op1, const ScalarExpr<N, E>& op2)] *)
Definition binary_operator_double_left (op1 : float) (op2 : ScalarExpr)
  : outcome ScalarExpr :=
  ScalarBinOp_ctor N
    (Scalar_ctor op1 (inner_size N (get op2))) (get op2) FUNCTOR.
End DEFINE_SCALAR_BINARY_OPERATOR.

(** [std::plus<>], [std::minus<>], [std::multiplies<>], [std::divides<>]
    at [double]. *)
Definition std_plus : float -> float -> float := PrimFloat.add.
Definition std_minus : float -> float -> float := PrimFloat.sub.
Definition std_multiplies : float -> float -> float := PrimFloat.mul.
Definition std_divides : float -> float -> float := PrimFloat.div.

Definition operator_plus (N : Z) := binary_operator N std_plus.
Definition operator_minus (N : Z) := binary_operator N std_minus.
Definition operator_times (N : Z) := binary_operator N std_multiplies.
Definition operator_divide (N : Z) := binary_operator N std_divides.

(** [DEFINE_SCALAR_UNARY_OPERATOR(OPERATOR, FUNCTION)] *)
Definition unary_operator (N : Z) (FUNCTION : float -> float)
  (op1 : ScalarExpr) : ScalarExpr :=
  let OPERATOR_ := fun x : float => FUNCTION x in
  ScalarUnOp_ctor (get op1) OPERATOR_ (inner_size N (get op1)).

(** The elementary functions of [<cmath>] are not part of the sources: the
    five wrappers are stated for any functions on [double] in their place. *)
Section Elementary.
Variables std_sin std_cos std_tan std_exp std_log : float -> float.
Variable N : Z.

Definition sin := unary_operator N std_sin.
Definition cos := unary_operator N std_cos.
Definition tan := unary_operator N std_tan.
Definition exp := unary_operator N std_exp.
Definition log := unary_operator N std_log.
End Elementary.

(** ** Arity agreement *)

(** Every node of the tree reports the arity that the root reports. *)
Fixpoint arity_agrees (N : Z) (e : ScalarExpr) : bool :=
  match e with
  | Scalar _ _ => true
  | DiscretizedScalarField _ _ _ => true
  | ScalarBinOp _ op1_ op2_ _ =>
      (inner_size N op1_ =? inner_size N e)
      && (inner_size N op2_ =? inner_size N e)
      && arity_agrees N op1_ && arity_agrees N op2_
  | ScalarUnOp _ op_ _ =>
      (inner_size N op_ =? inner_size N e) && arity_agrees N op_
  | ScalarNegationOp _ op_ =>
      (inner_size N op_ =? inner_size N e) && arity_agrees N op_
  end.

(** ** Hyperplanes *)

(** Modelled from the spec: the class [HyperPlane] of [fdaPDE/geometry.h],
    of which only the tests are among the sources.  The definitions below
    follow section 4.5 of the specification: an offset point, a basis of the
    linear part, and the operations Evaluate, ProjectOnto and Project given
    there by their formulas. *)
Module HyperPlane.

Definition vector : Type := list float.

Fixpoint zip_with (f : float -> float -> float) (u v : vector) : vector :=
  match u, v with
  | x :: u', y :: v' => f x y :: zip_with f u' v'
  | _, _ => []
  end.

Definition vadd : vector -> vector -> vector := zip_with PrimFloat.add.
Definition vsub : vector -> vector -> vector := zip_with PrimFloat.sub.
Definition scale (c : float) (v : vector) : vector :=
  map (fun x => (c * x)%float) v.
Definition zero (m : nat) : vector := repeat 0%float m.

(** The inner product of two ambient vectors. *)
Definition dot (u v : vector) : float :=
  fold_left PrimFloat.add (zip_with PrimFloat.mul u v) 0%float.

(** Modelled from the spec: the attributes of a hyperplane, its offset point
    and the basis of its linear part. *)
Record t : Type := {
  offset : vector;
  basis : list vector
}.

(** The dimension of the ambient space. *)
Definition ambient (H : t) : nat := List.length (offset H).

(** Modelled from the spec: Evaluate,
    [offset + sum_i local_coords[i] * basis[i]]. *)
Fixpoint combination (acc : vector) (coords : list float) (bs : list vector)
  : vector :=
  match coords, bs with
  | c :: coords', b :: bs' => combination (vadd acc (scale c b)) coords' bs'
  | _, _ => acc
  end.

Definition Evaluate (H : t) (local_coords : list float) : vector :=
  vadd (offset H) (combination (zero (ambient H)) local_coords (basis H)).

(** Modelled from the spec: ProjectOnto,
    [local_coords[i] = <ambient_point - offset, basis[i]>]. *)
Definition ProjectOnto (H : t) (ambient_point : vector) : list float :=
  map (fun b => dot (vsub ambient_point (offset H)) b) (basis H).

(** Modelled from the spec: Project,
    [offset + sum_i <ambient_point - offset, basis[i]> * basis[i]]. *)
Fixpoint projection_sum (acc d : vector) (bs : list vector) : vector :=
  match bs with
  | b :: bs' => projection_sum (vadd acc (scale (dot d b) b)) d bs'
  | [] => acc
  end.

Definition Project (H : t) (ambient_point : vector) : vector :=
  vadd (offset H)
    (projection_sum (zero (ambient H))
       (vsub ambient_point (offset H)) (basis H)).

(** Modelled from the spec: Distance, the Euclidean norm of
    [ambient_point - Project(ambient_point)]. *)
Definition Distance (H : t) (ambient_point : vector) : float :=
  let r := vsub ambient_point (Project H ambient_point) in
  PrimFloat.sqrt (dot r r).

(** The tests compare vectors up to a tolerance on the norm of their
    difference; the specification gives the tolerance as [1e-9]. *)
Definition DOUBLE_TOLERANCE : float := 1e-9%float.

Definition norm (v : vector) : float := PrimFloat.sqrt (dot v v).

Definition near (u v : vector) : bool :=
  PrimFloat.ltb (norm (vsub u v)) DOUBLE_TOLERANCE.

End HyperPlane.

(** ** The check claimed of every node *)

(** The claim that evaluation checks the dimension of the point at every
    node of a dynamic-arity tree. *)
Definition evaluate_checks_every_node : Prop :=
  forall (e : ScalarExpr) (p : VectorType),
    rows p <> inner_size Dynamic e ->
    exists what, evaluate Dynamic e p = Throws what.


(** ** Observations on a tree *)

(** The message of the assertion in [ScalarBinOp::operator()]. *)
Definition rows_mismatch : string :=
  "Condition p.rows() == Base::inner_size() failed".

(** Whether the runtime arity of every binary node of the tree is [r]: the
    conjunction of the assertions that an evaluation under dynamic arity at
    a point of [r] rows meets. *)
Fixpoint binary_nodes_accept (e : ScalarExpr) (r : Z) : bool :=
  match e with
  | Scalar _ _ => true
  | DiscretizedScalarField _ _ _ => true
  | ScalarBinOp base op1_ op2_ _ =>
      (r =? dynamic_inner_size_ base)
      && binary_nodes_accept op1_ r && binary_nodes_accept op2_ r
  | ScalarUnOp _ op_ _ => binary_nodes_accept op_ r
  | ScalarNegationOp _ op_ => binary_nodes_accept op_ r
  end.

(** Whether the tree has a binary node. *)
Fixpoint has_binary_node (e : ScalarExpr) : bool :=
  match e with
  | Scalar _ _ => false
  | DiscretizedScalarField _ _ _ => false
  | ScalarBinOp _ _ _ _ => true
  | ScalarUnOp _ op_ _ => has_binary_node op_
  | ScalarNegationOp _ op_ => has_binary_node op_
  end.

(** The discretized leaves that are not below a generic unary node, left to
    right, each with its pointer and the value it holds. *)
Fixpoint forwarded_leaves (e : ScalarExpr) : list (option address * float) :=
  match e with
  | Scalar _ _ => []
  | DiscretizedScalarField _ data_ value_ => [(data_, value_)]
  | ScalarBinOp _ op1_ op2_ _ => forwarded_leaves op1_ ++ forwarded_leaves op2_
  | ScalarUnOp _ _ _ => []
  | ScalarNegationOp _ op_ => forwarded_leaves op_
  end.

(** The values held by the discretized leaves that are below a generic unary
    node, left to right. *)
Fixpoint skipped_values (e : ScalarExpr) : list float :=
  match e with
  | Scalar _ _ => []
  | DiscretizedScalarField _ _ _ => []
  | ScalarBinOp _ op1_ op2_ _ => skipped_values op1_ ++ skipped_values op2_
  | ScalarUnOp _ op_ _ => discretized_values op_
  | ScalarNegationOp _ op_ => skipped_values op_
  end.


(** * Properties *)

(** ** The outcome monad *)

Lemma bind_Returns {A B : Type} (a : A) (k : A -> outcome B) :
  bind (Returns a) k = k a.
Proof. reflexivity. Qed.

Lemma fdapde_assert_true (text : string) : fdapde_assert true text = Returns tt.
Proof. reflexivity. Qed.

Lemma fdapde_assert_false (text : string) :
  fdapde_assert false text = Throws ("Condition " ++ text ++ " failed")%string.
Proof. reflexivity. Qed.

(** ** Arity of the nodes *)

Lemma inner_size_static (N : Z) (e : ScalarExpr) :
  N <> Dynamic -> inner_size N e = N.
Proof.
  intros HN. unfold inner_size.
  destruct (Z.eqb_spec N Dynamic) as [E | E]; [contradiction | reflexivity].
Qed.

Lemma inner_size_dynamic (e : ScalarExpr) :
  inner_size Dynamic e = dynamic_inner_size_ (base_of e).
Proof. reflexivity. Qed.

(** A node whose base was built from the arity of [e] reports that arity. *)
Lemma inner_size_copied (N : Z) (e e' : ScalarExpr) :
  base_of e' = ScalarExprBase_ctor (inner_size N e) ->
  inner_size N e' = inner_size N e.
Proof.
  intros Hb. unfold inner_size at 1. rewrite Hb. cbn.
  unfold inner_size. destruct (N =? Dynamic); reflexivity.
Qed.

Lemma inner_size_operator_neg (N : Z) (e : ScalarExpr) :
  inner_size N (operator_neg e) = inner_size N e.
Proof. unfold inner_size. destruct (N =? Dynamic); reflexivity. Qed.

Lemma inner_size_unary_operator (N : Z) (g : float -> float) (e : ScalarExpr) :
  inner_size N (unary_operator N g e) = inner_size N e.
Proof. apply inner_size_copied. reflexivity. Qed.

(** ** Construction of binary nodes *)

(** The constructor returns exactly when the assertion holds, and then the
    node it returns is the one holding the two operands. *)
Lemma ScalarBinOp_ctor_Returns (N : Z) (op1 op2 : ScalarExpr)
  (f : float -> float -> float) :
  inner_size N op1 = inner_size N op2 ->
  ScalarBinOp_ctor N op1 op2 f =
  Returns (ScalarBinOp (ScalarExprBase_ctor (inner_size N op1)) op1 op2 f).
Proof.
  intros Heq. unfold ScalarBinOp_ctor.
  destruct (N =? Dynamic); [| reflexivity].
  rewrite Heq, Z.eqb_refl. reflexivity.
Qed.

Lemma ScalarBinOp_ctor_inv (N : Z) (op1 op2 c : ScalarExpr)
  (f : float -> float -> float) :
  ScalarBinOp_ctor N op1 op2 f = Returns c ->
  c = ScalarBinOp (ScalarExprBase_ctor (inner_size N op1)) op1 op2 f
  /\ inner_size N op1 = inner_size N op2.
Proof.
  unfold ScalarBinOp_ctor. intros Hc.
  destruct (Z.eqb_spec N Dynamic) as [E | E].
  - destruct (Z.eqb_spec (inner_size N op1) (inner_size N op2)) as [Heq | Hne].
    + cbn in Hc. split; [congruence | assumption].
    + cbn in Hc. discriminate Hc.
  - cbn in Hc. split; [congruence |].
    rewrite !inner_size_static by assumption. reflexivity.
Qed.

Lemma ScalarBinOp_ctor_Throws (op1 op2 : ScalarExpr)
  (f : float -> float -> float) :
  inner_size Dynamic op1 <> inner_size Dynamic op2 ->
  ScalarBinOp_ctor Dynamic op1 op2 f =
  Throws "Condition op1_.inner_size() == op2_.inner_size() failed".
Proof.
  intros Hne. unfold ScalarBinOp_ctor.
  rewrite Z.eqb_refl.
  destruct (Z.eqb_spec (inner_size Dynamic op1) (inner_size Dynamic op2));
    [contradiction | reflexivity].
Qed.

(** ** Evaluation of binary nodes *)

Lemma evaluate_ScalarBinOp (N : Z) (base : ScalarExprBase)
  (op1 op2 : ScalarExpr) (f : float -> float -> float) (p : VectorType) :
  rows p = inner_size N (ScalarBinOp base op1 op2 f) ->
  evaluate N (ScalarBinOp base op1 op2 f) p =
  lift2 f (evaluate N op1 p) (evaluate N op2 p).
Proof.
  intros Hp. cbn [evaluate].
  rewrite Hp, Z.eqb_refl, fdapde_assert_true.
  destruct (N =? Dynamic); reflexivity.
Qed.

Lemma binary_operator_evaluate (N : Z) (F : float -> float -> float)
  (a b : ScalarExpr) (p : VectorType) :
  inner_size N a = inner_size N b ->
  rows p = inner_size N a ->
  exists c, binary_operator N F a b = Returns c
            /\ evaluate N c p = lift2 F (evaluate N a p) (evaluate N b p).
Proof.
  intros Hab Hp. unfold binary_operator, get.
  rewrite (ScalarBinOp_ctor_Returns N a b F Hab).
  eexists. split; [reflexivity |].
  apply evaluate_ScalarBinOp.
  rewrite Hp. symmetry. apply inner_size_copied. reflexivity.
Qed.

(** C1: for two expressions [a], [b] of equal arity and a point [p] of that
    arity, each of the overloaded operators [+], [-], [*], [/] builds a node,
    and that node evaluated at [p] is the sum, difference, product or
    quotient of the evaluations of [a] and of [b] at [p] (an evaluation of
    an operand that raises makes the evaluation of the node raise). *)
Theorem binary_operators_evaluate (N : Z) (a b : ScalarExpr) (p : VectorType) :
  inner_size N a = inner_size N b ->
  rows p = inner_size N a ->
  (exists c, operator_plus N a b = Returns c
     /\ evaluate N c p = lift2 PrimFloat.add (evaluate N a p) (evaluate N b p))
  /\ (exists c, operator_minus N a b = Returns c
     /\ evaluate N c p = lift2 PrimFloat.sub (evaluate N a p) (evaluate N b p))
  /\ (exists c, operator_times N a b = Returns c
     /\ evaluate N c p = lift2 PrimFloat.mul (evaluate N a p) (evaluate N b p))
  /\ (exists c, operator_divide N a b = Returns c
     /\ evaluate N c p = lift2 PrimFloat.div (evaluate N a p) (evaluate N b p)).
Proof.
  intros Hab Hp.
  repeat split; apply binary_operator_evaluate; assumption.
Qed.

Lemma binary_operators_evaluate_witness :
  let a := Scalar_ctor 1.5 2 in
  let b := Scalar_ctor 2 2 in
  let p := [0; 0]%float in
  (exists c, operator_plus Dynamic a b = Returns c
     /\ evaluate Dynamic c p
        = lift2 PrimFloat.add (evaluate Dynamic a p) (evaluate Dynamic b p))
  /\ (exists c, operator_minus Dynamic a b = Returns c
     /\ evaluate Dynamic c p
        = lift2 PrimFloat.sub (evaluate Dynamic a p) (evaluate Dynamic b p))
  /\ (exists c, operator_times Dynamic a b = Returns c
     /\ evaluate Dynamic c p
        = lift2 PrimFloat.mul (evaluate Dynamic a p) (evaluate Dynamic b p))
  /\ (exists c, operator_divide Dynamic a b = Returns c
     /\ evaluate Dynamic c p
        = lift2 PrimFloat.div (evaluate Dynamic a p) (evaluate Dynamic b p)).
Proof.
  intros a b p.
  apply (binary_operators_evaluate Dynamic a b p); reflexivity.
Defined.

(** The operators on concrete operands: [(x + 3) / 2] on the constant
    expression [x = 1.5] of arity 2. *)
Example operators_compose :
  (s <- binary_operator_double_right Dynamic std_plus (Scalar_ctor 1.5 2) 3 ;;
   q <- binary_operator_double_right Dynamic std_divides s 2 ;;
   evaluate Dynamic q [7; 8]%float)
  = Returns 2.25%float.
Proof. vm_compute. reflexivity. Qed.

(** ** Negation and unary functions *)

(** C6: the node built by unary [operator-] evaluates at [p] to the negation
    of the evaluation of its operand at [p]. *)
Theorem operator_neg_evaluate (N : Z) (a : ScalarExpr) (p : VectorType) :
  evaluate N (operator_neg a) p = lift1 PrimFloat.opp (evaluate N a p).
Proof. reflexivity. Qed.

Lemma unary_operator_evaluate (N : Z) (g : float -> float)
  (a : ScalarExpr) (p : VectorType) :
  evaluate N (unary_operator N g a) p = lift1 g (evaluate N a p).
Proof. reflexivity. Qed.

Section ElementaryFacts.
Variables std_sin std_cos std_tan std_exp std_log : float -> float.

(** C7: the nodes returned by [sin], [cos], [tan], [exp] and [log]
    evaluate at [p] to the corresponding elementary function applied to
    the evaluation of the operand at [p]. *)
Theorem elementary_functions_evaluate (N : Z) (a : ScalarExpr)
  (p : VectorType) :
  evaluate N (sin std_sin N a) p = lift1 std_sin (evaluate N a p)
  /\ evaluate N (cos std_cos N a) p = lift1 std_cos (evaluate N a p)
  /\ evaluate N (tan std_tan N a) p = lift1 std_tan (evaluate N a p)
  /\ evaluate N (exp std_exp N a) p = lift1 std_exp (evaluate N a p)
  /\ evaluate N (log std_log N a) p = lift1 std_log (evaluate N a p).
Proof.
  unfold sin, cos, tan, exp, log.
  repeat split; apply unary_operator_evaluate.
Qed.
End ElementaryFacts.

(** ** Discretized fields *)

Lemma coeff_entry (m : MatrixType) (i : Z) (row : list float) (v : float) :
  0 <= i ->
  nth_error m (Z.to_nat i) = Some row ->
  nth_error row 0 = Some v ->
  coeff m i 0 = Returns v.
Proof.
  intros Hi Hrow Hv. unfold coeff.
  apply Z.leb_le in Hi. rewrite Hi. cbn.
  rewrite Hrow. cbn in Hv. cbn. rewrite Hv. reflexivity.
Qed.

(** C5: on a discretized leaf whose pointer designates a table, [forward(i)]
    for a row [i] of the table returns, and the leaf then evaluates, at any
    point, to the entry at row [i], column 0 of the table, whatever value
    the leaf held before. *)
Theorem forward_then_evaluate (N : Z) (mem : memory) (data : address)
  (table : MatrixType) (base : ScalarExprBase) (held : float)
  (i : Z) (row : list float) (v : float) (p : VectorType) :
  mem data = Some table ->
  0 <= i ->
  nth_error table (Z.to_nat i) = Some row ->
  nth_error row 0 = Some v ->
  exists leaf,
    forward mem (DiscretizedScalarField base (Some data) held) i = Returns leaf
    /\ evaluate N leaf p = Returns v.
Proof.
  intros Hmem Hi Hrow Hv.
  exists (DiscretizedScalarField base (Some data) v). split; [| reflexivity].
  cbn [forward deref_coeff]. rewrite Hmem.
  rewrite (coeff_entry table i row v Hi Hrow Hv). reflexivity.
Qed.

Lemma forward_then_evaluate_witness :
  let mem : memory :=
    fun a => if Nat.eqb a 0 then Some [[10]; [20]; [30]]%float else None in
  exists leaf,
    forward mem (DiscretizedScalarField_ctor 0%nat) 1 = Returns leaf
    /\ evaluate 2 leaf [0.5; 0.25]%float = Returns 20%float.
Proof.
  intros mem.
  apply (forward_then_evaluate 2 mem 0%nat [[10]; [20]; [30]]%float
           ScalarExprBase_default 0%float 1 [20]%float 20%float);
    [reflexivity | lia | reflexivity | reflexivity].
Defined.

(** C9: a discretized leaf that was just constructed, by either constructor,
    evaluates to [0] at every point. *)
Theorem evaluate_before_forward (N : Z) (data : address) (p : VectorType) :
  evaluate N (DiscretizedScalarField_ctor data) p = Returns 0%float
  /\ evaluate N DiscretizedScalarField_default p = Returns 0%float.
Proof. split; reflexivity. Qed.

(** A row outside of the table, or a pointer that was never set, is not a
    defined read. *)
Example forward_out_of_range :
  let mem : memory :=
    fun a => if Nat.eqb a 0 then Some [[10]; [20]; [30]]%float else None in
  forward mem (DiscretizedScalarField_ctor 0%nat) 3 = Undefined
  /\ forward mem (DiscretizedScalarField_ctor 0%nat) (-1) = Undefined
  /\ forward mem DiscretizedScalarField_default 0 = Undefined.
Proof. repeat split. Qed.

(** ** Arity checks at construction *)

(** C4: under dynamic arity, constructing a binary node from two operands
    whose runtime arities differ raises a [std::runtime_error] that names the
    failed condition; the constructor returns no node, and the exception
    leaves the overloaded operator that called it. *)
Theorem construction_arity_mismatch (op1 op2 : ScalarExpr)
  (f : float -> float -> float) :
  inner_size Dynamic op1 <> inner_size Dynamic op2 ->
  ScalarBinOp_ctor Dynamic op1 op2 f
  = Throws "Condition op1_.inner_size() == op2_.inner_size() failed"
  /\ (forall c, ScalarBinOp_ctor Dynamic op1 op2 f <> Returns c)
  /\ binary_operator Dynamic f op1 op2
     = Throws "Condition op1_.inner_size() == op2_.inner_size() failed".
Proof.
  intros Hne.
  pose proof (ScalarBinOp_ctor_Throws op1 op2 f Hne) as Hthrow.
  split; [exact Hthrow |]. split.
  - intros c Hc. rewrite Hthrow in Hc. discriminate Hc.
  - exact Hthrow.
Qed.

Lemma construction_arity_mismatch_witness :
  ScalarBinOp_ctor Dynamic (Scalar_ctor 1 2) (Scalar_ctor 1 3) std_plus
  = Throws "Condition op1_.inner_size() == op2_.inner_size() failed"
  /\ (forall c,
        ScalarBinOp_ctor Dynamic (Scalar_ctor 1 2) (Scalar_ctor 1 3) std_plus
        <> Returns c)
  /\ binary_operator Dynamic std_plus (Scalar_ctor 1 2) (Scalar_ctor 1 3)
     = Throws "Condition op1_.inner_size() == op2_.inner_size() failed".
Proof.
  apply (construction_arity_mismatch (Scalar_ctor 1 2) (Scalar_ctor 1 3)).
  cbn. lia.
Defined.

Lemma arity_agrees_ScalarBinOp (N : Z) (a b : ScalarExpr)
  (f : float -> float -> float) :
  inner_size N a = inner_size N b ->
  arity_agrees N a = true ->
  arity_agrees N b = true ->
  arity_agrees N (ScalarBinOp (ScalarExprBase_ctor (inner_size N a)) a b f)
  = true.
Proof.
  intros Hab Ha Hb. cbn [arity_agrees].
  rewrite (inner_size_copied N a
             (ScalarBinOp (ScalarExprBase_ctor (inner_size N a)) a b f))
    by reflexivity.
  rewrite <- Hab, Z.eqb_refl, Ha, Hb. reflexivity.
Qed.

(** C10: a binary node that was constructed reports the arity of its first
    operand, whose runtime arity it copied, and the arity of its second
    operand (under dynamic arity because the constructor checked it); if
    every node of either operand reports the arity of its root, so does
    every node of the new tree; and the nodes that the overload layer builds
    on top of it (negation, unary function, binary operator) report the same
    arity again. *)
Theorem binary_node_arity (N : Z) (a b c : ScalarExpr)
  (f : float -> float -> float) :
  ScalarBinOp_ctor N a b f = Returns c ->
  inner_size N c = inner_size N a
  /\ dynamic_inner_size_ (base_of c) = inner_size N a
  /\ (N = Dynamic -> inner_size N c = inner_size N b)
  /\ (arity_agrees N a = true -> arity_agrees N b = true ->
      arity_agrees N c = true)
  /\ inner_size N (operator_neg c) = inner_size N c
  /\ (forall g, inner_size N (unary_operator N g c) = inner_size N c)
  /\ (forall g d e, binary_operator N g c d = Returns e ->
        inner_size N e = inner_size N c /\ inner_size N d = inner_size N c).
Proof.
  intros Hc. apply ScalarBinOp_ctor_inv in Hc. destruct Hc as [-> Hab].
  assert (Hca : inner_size N
            (ScalarBinOp (ScalarExprBase_ctor (inner_size N a)) a b f)
          = inner_size N a) by (apply inner_size_copied; reflexivity).
  split; [exact Hca |].
  split; [reflexivity |].
  split; [intros _; rewrite Hca; exact Hab |].
  split; [intros Ha Hb; apply arity_agrees_ScalarBinOp; assumption |].
  split; [apply inner_size_operator_neg |].
  split; [intros g; apply inner_size_unary_operator |].
  intros g d e He. unfold binary_operator, get in He.
  apply ScalarBinOp_ctor_inv in He. destruct He as [-> Hcd].
  split; [apply inner_size_copied; reflexivity | symmetry; exact Hcd].
Qed.

Lemma binary_node_arity_witness :
  let a := Scalar_ctor 1 3 in
  let b := DiscretizedScalarField (ScalarExprBase_ctor 3) (Some 0%nat) 4 in
  let c := ScalarBinOp (ScalarExprBase_ctor 3) a b std_multiplies in
  inner_size Dynamic c = inner_size Dynamic a
  /\ dynamic_inner_size_ (base_of c) = inner_size Dynamic a
  /\ (Dynamic = Dynamic -> inner_size Dynamic c = inner_size Dynamic b)
  /\ (arity_agrees Dynamic a = true -> arity_agrees Dynamic b = true ->
      arity_agrees Dynamic c = true)
  /\ inner_size Dynamic (operator_neg c) = inner_size Dynamic c
  /\ (forall g,
        inner_size Dynamic (unary_operator Dynamic g c) = inner_size Dynamic c)
  /\ (forall g d e, binary_operator Dynamic g c d = Returns e ->
        inner_size Dynamic e = inner_size Dynamic c
        /\ inner_size Dynamic d = inner_size Dynamic c).
Proof.
  intros a b c.
  apply (binary_node_arity Dynamic a b c std_multiplies). reflexivity.
Defined.

(** The same construction for a static arity, where no check is made. *)
Example binary_node_arity_static :
  exists c,
    ScalarBinOp_ctor 3 (Scalar_ctor 1 3) (DiscretizedScalarField_ctor 0%nat)
      std_plus = Returns c
    /\ inner_size 3 c = 3
    /\ arity_agrees 3 c = true.
Proof. eexists. repeat split. Qed.

(** ** Forwarding *)

(** C3: [forward(i)] on a binary node is [forward(i)] on the first operand
    followed by [forward(i)] on the second, whatever the operands are;
    [forward(i)] on a negation node is [forward(i)] on its operand; and
    [forward(i)] on a generic unary node returns the node as it was, so that
    every discretized leaf below it holds the value it held before. *)
Theorem forward_propagation (mem : memory) (i : Z) :
  (forall base op1 op2 f,
     forward mem (ScalarBinOp base op1 op2 f) i
     = (op1' <- forward mem op1 i ;;
        op2' <- forward mem op2 i ;;
        Returns (ScalarBinOp base op1' op2' f)))
  /\ (forall base op,
        forward mem (ScalarNegationOp base op) i
        = (op' <- forward mem op i ;; Returns (ScalarNegationOp base op')))
  /\ (forall base op f,
        exists e',
          forward mem (ScalarUnOp base op f) i = Returns e'
          /\ e' = ScalarUnOp base op f
          /\ discretized_values e' = discretized_values op).
Proof.
  split; [reflexivity |]. split; [reflexivity |].
  intros base op f. exists (ScalarUnOp base op f).
  repeat split.
Qed.

(** The asymmetry on a table of three rows: after [forward(1)] the leaf
    below a negation holds row 1, the leaf below a generic unary node still
    holds the value it was constructed with. *)
Example forward_asymmetry :
  let mem : memory :=
    fun a => if Nat.eqb a 0 then Some [[10]; [20]; [30]]%float else None in
  let leaf := DiscretizedScalarField_ctor 0%nat in
  let twice := fun x : float => (x + x)%float in
  (e <- forward mem (operator_neg leaf) 1 ;; evaluate 2 e [0; 0]%float)
  = Returns (-20)%float
  /\ (e <- forward mem (unary_operator 2 twice leaf) 1 ;;
      evaluate 2 e [0; 0]%float)
     = Returns 0%float
  /\ (s <- binary_operator 2 std_plus (unary_operator 2 twice leaf) leaf ;;
      e <- forward mem s 1 ;;
      Returns (discretized_values e))
     = Returns [0; 20]%float.
Proof. vm_compute. repeat split. Qed.

(** ** Arity checks at evaluation *)

(** C2, as stated, fails: a constant of dynamic arity 3 evaluated at a point
    with no rows returns its value; and so does the negation of it. *)
Lemma evaluate_unchecked_at_leaf :
  rows [] <> inner_size Dynamic (Scalar_ctor 2 3)
  /\ evaluate Dynamic (Scalar_ctor 2 3) [] = Returns 2%float
  /\ evaluate Dynamic (operator_neg (Scalar_ctor 2 3)) [] = Returns (-2)%float
  /\ ~ evaluate_checks_every_node.
Proof.
  assert (Hrows : rows [] <> inner_size Dynamic (Scalar_ctor 2 3))
    by (cbn; lia).
  split; [exact Hrows |].
  split; [reflexivity |].
  split; [reflexivity |].
  intros Hclaim.
  destruct (Hclaim (Scalar_ctor 2 3) [] Hrows) as [what Hwhat].
  cbn in Hwhat. discriminate Hwhat.
Qed.

(** C2, amended: under dynamic arity, evaluating a binary node at a point
    whose number of rows differs from the arity of the node raises a
    [std::runtime_error] that names the failed condition, before any operand
    is evaluated; the two kinds of leaves make no check and return the value
    they hold. *)
Theorem evaluate_arity_mismatch (base : ScalarExprBase) (op1 op2 : ScalarExpr)
  (f : float -> float -> float) (p : VectorType) :
  rows p <> inner_size Dynamic (ScalarBinOp base op1 op2 f) ->
  evaluate Dynamic (ScalarBinOp base op1 op2 f) p
  = Throws "Condition p.rows() == Base::inner_size() failed"
  /\ (forall b v, evaluate Dynamic (Scalar b v) p = Returns v)
  /\ (forall b d v, evaluate Dynamic (DiscretizedScalarField b d v) p
                    = Returns v).
Proof.
  intros Hne. split; [| split; reflexivity].
  cbn [evaluate]. rewrite Z.eqb_refl.
  destruct (Z.eqb_spec (rows p) (inner_size Dynamic (ScalarBinOp base op1 op2 f)));
    [contradiction | reflexivity].
Qed.

Lemma evaluate_arity_mismatch_witness :
  let p := [1; 2]%float in
  evaluate Dynamic
    (ScalarBinOp (ScalarExprBase_ctor 3) (Scalar_ctor 1 3) (Scalar_ctor 2 3)
       std_plus) p
  = Throws "Condition p.rows() == Base::inner_size() failed"
  /\ (forall b v, evaluate Dynamic (Scalar b v) p = Returns v)
  /\ (forall b d v, evaluate Dynamic (DiscretizedScalarField b d v) p
                    = Returns v).
Proof.
  intros p.
  apply (evaluate_arity_mismatch (ScalarExprBase_ctor 3)
           (Scalar_ctor 1 3) (Scalar_ctor 2 3) std_plus p).
  cbn. lia.
Defined.

(** An evaluation raises no other exception, and is always defined. *)
Lemma evaluate_outcomes (N : Z) (e : ScalarExpr) (p : VectorType) :
  (exists v, evaluate N e p = Returns v)
  \/ evaluate N e p = Throws "Condition p.rows() == Base::inner_size() failed".
Proof.
  induction e as [b v | b d v | b e1 IH1 e2 IH2 f | b e1 IH1 f | b e1 IH1].
  - left. eexists. reflexivity.
  - left. eexists. reflexivity.
  - cbn [evaluate].
    destruct (N =? Dynamic);
      [destruct (rows p =? inner_size N (ScalarBinOp b e1 e2 f));
         [| right; reflexivity] |];
      cbn [fdapde_assert bind];
      (destruct IH1 as [[x ->] | ->]; [| right; reflexivity]);
      (destruct IH2 as [[y ->] | ->]; [| right; reflexivity]);
      left; eexists; reflexivity.
  - cbn [evaluate].
    destruct IH1 as [[x ->] | ->]; [left; eexists | right]; reflexivity.
  - cbn [evaluate].
    destruct IH1 as [[x ->] | ->]; [left; eexists | right]; reflexivity.
Qed.

(** X18: the order in which a binary node evaluates its operands, which
    C++ leaves open, is not observable: evaluating the second operand of
    every binary node before the first gives the same outcome. *)
Lemma evaluate_order (N : Z) (e : ScalarExpr) (p : VectorType) :
  evaluate_right_first N e p = evaluate N e p.
Proof.
  induction e as [b v | b d v | b e1 IH1 e2 IH2 f | b e1 IH1 f | b e1 IH1];
    cbn [evaluate evaluate_right_first];
    try rewrite IH1; try rewrite IH2; try reflexivity.
  f_equal.
  destruct (evaluate_outcomes N e1 p) as [[x ->] | ->];
    destruct (evaluate_outcomes N e2 p) as [[y ->] | ->]; reflexivity.
Qed.

(** [resize] rebinds the arity that a dynamic node reports, and [set_step]
    leaves it as it is. *)
Lemma inner_size_resize (e e' : ScalarExpr) (n : Z) :
  resize Dynamic e n = Some e' -> inner_size Dynamic e' = n.
Proof.
  cbn. intros He. injection He as <-. destruct e; reflexivity.
Qed.

Lemma inner_size_set_step (N : Z) (e : ScalarExpr) (h : float) :
  inner_size N (set_step e h) = inner_size N e /\ step (set_step e h) = h.
Proof.
  unfold inner_size, step. destruct e; split; reflexivity.
Qed.

(** ** Hyperplanes *)

Lemma combination_ProjectOnto (d : HyperPlane.vector)
  (bs : list HyperPlane.vector) :
  forall acc : HyperPlane.vector,
    HyperPlane.combination acc (map (fun b => HyperPlane.dot d b) bs) bs
    = HyperPlane.projection_sum acc d bs.
Proof.
  induction bs as [| b bs IH]; intros acc.
  - reflexivity.
  - cbn [map HyperPlane.combination HyperPlane.projection_sum].
    apply IH.
Qed.

(** C8: mapping an ambient point to its intrinsic coordinates and these back
    to the ambient space gives the projection of the point: the offset plus
    the sum of the basis vectors, each scaled by the inner product of the
    point minus the offset with it. *)
Theorem Evaluate_ProjectOnto (H : HyperPlane.t) (p : HyperPlane.vector) :
  HyperPlane.Evaluate H (HyperPlane.ProjectOnto H p) = HyperPlane.Project H p
  /\ HyperPlane.Project H p
     = HyperPlane.vadd (HyperPlane.offset H)
         (fold_left
            (fun acc b =>
               HyperPlane.vadd acc
                 (HyperPlane.scale
                    (HyperPlane.dot (HyperPlane.vsub p (HyperPlane.offset H)) b)
                    b))
            (HyperPlane.basis H)
            (HyperPlane.zero (List.length (HyperPlane.offset H)))).
Proof.
  split.
  - unfold HyperPlane.Evaluate, HyperPlane.ProjectOnto, HyperPlane.Project.
    rewrite combination_ProjectOnto. reflexivity.
  - unfold HyperPlane.Project, HyperPlane.ambient. f_equal.
    generalize (HyperPlane.zero (List.length (HyperPlane.offset H))).
    induction (HyperPlane.basis H) as [| b bs IH]; intros acc.
    + reflexivity.
    + cbn [HyperPlane.projection_sum fold_left]. apply IH.
Qed.

(** The scenarios of [vector_space_test.cpp] on these definitions: the line
    through (0,0) and (1,1), and the plane through (0,0,0), (1,1,0) and
    (0,1,1), with the orthonormal bases that the tests name. *)
Example project_over_1d_space :
  let r2 := PrimFloat.sqrt 2 in
  let vs := {| HyperPlane.offset := [0; 0];
               HyperPlane.basis := [[1 / r2; 1 / r2]] |}%float in
  let p := [4; 3.5]%float in
  HyperPlane.near (HyperPlane.Project vs p) [3.75; 3.75]%float = true
  /\ HyperPlane.near (HyperPlane.ProjectOnto vs p)
       [5.30330085889910643301]%float = true
  /\ HyperPlane.near (HyperPlane.Evaluate vs (HyperPlane.ProjectOnto vs p))
       [3.75; 3.75]%float = true.
Proof. vm_compute. repeat split. Qed.

Example project_over_2d_space :
  let r2 := PrimFloat.sqrt 2 in
  let r6 := PrimFloat.sqrt 6 in
  let vs := {| HyperPlane.offset := [0; 0; 0];
               HyperPlane.basis := [[1 / r2; 1 / r2; 0];
                                    [- 1 / r6; 1 / r6; 2 / r6]] |}%float in
  let p := [7.1; 3.4; 2]%float in
  HyperPlane.near (HyperPlane.Project vs p)
    [5.20; 5.3; 0.1]%float
  = true
  /\ PrimFloat.ltb (HyperPlane.Distance vs (HyperPlane.Project vs p))
       HyperPlane.DOUBLE_TOLERANCE = true.
Proof. vm_compute. repeat split. Qed.

(** * Further properties of the expression nodes *)

(** ** Outcomes of an evaluation *)

Lemma evaluate_accept (e : ScalarExpr) (p : VectorType) :
  evaluate Dynamic e p
  = if binary_nodes_accept e (rows p)
    then evaluate 0 e p
    else Throws rows_mismatch.
Proof.
  induction e as [b v | b d v | b e1 IH1 e2 IH2 f | b e1 IH1 f | b e1 IH1].
  - reflexivity.
  - reflexivity.
  - cbn [evaluate binary_nodes_accept]. rewrite IH1, IH2.
    change (Dynamic =? Dynamic) with true. change (0 =? Dynamic) with false.
    change (inner_size Dynamic (ScalarBinOp b e1 e2 f))
      with (dynamic_inner_size_ b).
    destruct (rows p =? dynamic_inner_size_ b); [| reflexivity].
    cbn [fdapde_assert bind andb].
    destruct (binary_nodes_accept e1 (rows p)); [| reflexivity].
    destruct (binary_nodes_accept e2 (rows p)); [reflexivity |].
    cbn [andb bind].
    destruct (evaluate_outcomes 0 e1 p) as [[x ->] | ->]; reflexivity.
  - cbn [evaluate binary_nodes_accept]. rewrite IH1.
    destruct (binary_nodes_accept e1 (rows p)); reflexivity.
  - cbn [evaluate binary_nodes_accept]. rewrite IH1.
    destruct (binary_nodes_accept e1 (rows p)); reflexivity.
Qed.

Lemma evaluate_static_Returns (N : Z) (e : ScalarExpr) (p : VectorType) :
  N <> Dynamic -> exists v, evaluate N e p = Returns v.
Proof.
  intros HN. apply Z.eqb_neq in HN.
  induction e as [b v | b d v | b e1 IH1 e2 IH2 f | b e1 IH1 f | b e1 IH1];
    cbn [evaluate]; try rewrite HN.
  - eexists. reflexivity.
  - eexists. reflexivity.
  - destruct IH1 as [x ->]. destruct IH2 as [y ->]. eexists. reflexivity.
  - destruct IH1 as [x ->]. eexists. reflexivity.
  - destruct IH1 as [x ->]. eexists. reflexivity.
Qed.

(** X1: for a static arity neither the construction of a binary node nor an
    evaluation raises: the constructor returns the node for any two
    operands, and every expression evaluates to a value at every point. *)
Theorem static_arity_never_raises (N : Z) (e a b : ScalarExpr)
  (f : float -> float -> float) (p : VectorType) :
  N <> Dynamic ->
  (exists v, evaluate N e p = Returns v)
  /\ ScalarBinOp_ctor N a b f
     = Returns (ScalarBinOp (ScalarExprBase_ctor N) a b f).
Proof.
  intros HN. split.
  - apply evaluate_static_Returns. exact HN.
  - rewrite ScalarBinOp_ctor_Returns
      by (rewrite !inner_size_static by exact HN; reflexivity).
    rewrite inner_size_static by exact HN. reflexivity.
Qed.

Lemma static_arity_never_raises_witness :
  let a := Scalar_ctor 1 7 in
  let b := DiscretizedScalarField_ctor 0%nat in
  let e := ScalarBinOp (ScalarExprBase_ctor 5) a b std_divides in
  (exists v, evaluate 2 e [] = Returns v)
  /\ ScalarBinOp_ctor 2 a b std_divides
     = Returns (ScalarBinOp (ScalarExprBase_ctor 2) a b std_divides).
Proof.
  intros a b e.
  apply (static_arity_never_raises 2 e a b std_divides []).
  unfold Dynamic. lia.
Defined.

(** X2: under dynamic arity an evaluation returns exactly when the runtime
    arity of every binary node of the tree is the number of rows of the
    point, and raises the [std::runtime_error] of the assertion exactly when
    one of them differs; it has no other outcome. *)
Theorem evaluate_dynamic_outcome (e : ScalarExpr) (p : VectorType) :
  (binary_nodes_accept e (rows p) = true
   <-> exists v, evaluate Dynamic e p = Returns v)
  /\ (binary_nodes_accept e (rows p) = false
      <-> evaluate Dynamic e p = Throws rows_mismatch)
  /\ evaluate Dynamic e p <> Undefined.
Proof.
  rewrite evaluate_accept.
  assert (H0 : 0 <> Dynamic) by (unfold Dynamic; lia).
  destruct (evaluate_static_Returns 0 e p H0) as [v Hv]. rewrite Hv.
  destruct (binary_nodes_accept e (rows p)).
  - split; [| split].
    + split; [intros _; exists v; reflexivity | reflexivity].
    + split; intros H; discriminate H.
    + intros H; discriminate H.
  - split; [| split].
    + split; [intros H; discriminate H | intros [w Hw]; discriminate Hw].
    + split; reflexivity.
    + intros H; discriminate H.
Qed.

(** X3: the value of an expression does not depend on the coordinates of
    the point: two points with the same number of rows give the same
    outcome. *)
Theorem evaluate_ignores_coordinates (N : Z) (e : ScalarExpr)
  (p q : VectorType) :
  rows p = rows q -> evaluate N e p = evaluate N e q.
Proof.
  intros Hrows.
  induction e as [b v | b d v | b e1 IH1 e2 IH2 f | b e1 IH1 f | b e1 IH1];
    cbn [evaluate]; try reflexivity.
  - rewrite Hrows, IH1, IH2. reflexivity.
  - rewrite IH1. reflexivity.
  - rewrite IH1. reflexivity.
Qed.

Lemma evaluate_ignores_coordinates_witness :
  let e := ScalarBinOp (ScalarExprBase_ctor 2)
             (operator_neg (Scalar_ctor 1.5 2))
             (DiscretizedScalarField (ScalarExprBase_ctor 2) None 4)
             std_multiplies in
  evaluate Dynamic e [1; 2]%float = evaluate Dynamic e [30; 40]%float.
Proof.
  intros e.
  apply (evaluate_ignores_coordinates Dynamic e [1; 2]%float [30; 40]%float).
  reflexivity.
Defined.

Lemma arity_agrees_accept (e : ScalarExpr) :
  arity_agrees Dynamic e = true ->
  binary_nodes_accept e (inner_size Dynamic e) = true.
Proof.
  induction e as [b v | b d v | b e1 IH1 e2 IH2 f | b e1 IH1 f | b e1 IH1];
    cbn [arity_agrees binary_nodes_accept]; intros Hagree;
    try reflexivity.
  - apply andb_prop in Hagree. destruct Hagree as [Hagree H2].
    apply andb_prop in Hagree. destruct Hagree as [Hagree H1].
    apply andb_prop in Hagree. destruct Hagree as [E1 E2].
    apply Z.eqb_eq in E1, E2.
    specialize (IH1 H1). specialize (IH2 H2).
    rewrite E1 in IH1. rewrite E2 in IH2. rewrite IH1, IH2.
    change (inner_size Dynamic (ScalarBinOp b e1 e2 f))
      with (dynamic_inner_size_ b).
    rewrite Z.eqb_refl. reflexivity.
  - apply andb_prop in Hagree. destruct Hagree as [E1 H1].
    apply Z.eqb_eq in E1. rewrite <- E1. exact (IH1 H1).
  - apply andb_prop in Hagree. destruct Hagree as [E1 H1].
    apply Z.eqb_eq in E1. rewrite <- E1. exact (IH1 H1).
Qed.

Lemma arity_agrees_reject (e : ScalarExpr) (r : Z) :
  arity_agrees Dynamic e = true ->
  r <> inner_size Dynamic e ->
  binary_nodes_accept e r = negb (has_binary_node e).
Proof.
  induction e as [b v | b d v | b e1 IH1 e2 IH2 f | b e1 IH1 f | b e1 IH1];
    cbn [arity_agrees binary_nodes_accept has_binary_node];
    intros Hagree Hr; try reflexivity.
  - change (inner_size Dynamic (ScalarBinOp b e1 e2 f))
      with (dynamic_inner_size_ b) in Hr.
    apply Z.eqb_neq in Hr. rewrite Hr. reflexivity.
  - apply andb_prop in Hagree. destruct Hagree as [E1 H1].
    apply Z.eqb_eq in E1. apply IH1; [exact H1 | rewrite E1; exact Hr].
  - apply andb_prop in Hagree. destruct Hagree as [E1 H1].
    apply Z.eqb_eq in E1. apply IH1; [exact H1 | rewrite E1; exact Hr].
Qed.

(** X4: a tree of which every node reports the arity of the root evaluates
    to a value at every point that has this arity as its number of rows. *)
Theorem agreeing_tree_evaluates (N : Z) (e : ScalarExpr) (p : VectorType) :
  arity_agrees N e = true ->
  rows p = inner_size N e ->
  exists v, evaluate N e p = Returns v.
Proof.
  intros Hagree Hp.
  destruct (Z.eq_dec N Dynamic) as [-> | HN].
  - rewrite evaluate_accept, Hp, (arity_agrees_accept e Hagree).
    apply evaluate_static_Returns. unfold Dynamic. lia.
  - apply evaluate_static_Returns. exact HN.
Qed.

Lemma agreeing_tree_evaluates_witness :
  let e := ScalarBinOp (ScalarExprBase_ctor 2)
             (operator_neg (Scalar_ctor 1.5 2))
             (ScalarBinOp (ScalarExprBase_ctor 2)
                (Scalar_ctor 1 2) (Scalar_ctor 3 2) std_plus)
             std_multiplies in
  exists v, evaluate Dynamic e [1; 2]%float = Returns v.
Proof.
  intros e.
  apply (agreeing_tree_evaluates Dynamic e [1; 2]%float); reflexivity.
Defined.

(** X5: under dynamic arity, on a tree of which every node reports the
    arity of the root, a point with another number of rows makes the
    evaluation raise exactly when the tree has a binary node; without one
    the evaluation returns a value although the point has the wrong
    dimension. *)
Theorem mismatch_raises_iff_binary_node (e : ScalarExpr) (p : VectorType) :
  arity_agrees Dynamic e = true ->
  rows p <> inner_size Dynamic e ->
  (has_binary_node e = true
   -> evaluate Dynamic e p = Throws rows_mismatch)
  /\ (has_binary_node e = false
      -> exists v, evaluate Dynamic e p = Returns v).
Proof.
  intros Hagree Hp.
  rewrite evaluate_accept, (arity_agrees_reject e (rows p) Hagree Hp).
  split; intros ->; cbn [negb].
  - reflexivity.
  - apply evaluate_static_Returns. unfold Dynamic. lia.
Qed.

Lemma mismatch_raises_iff_binary_node_witness :
  let e := operator_neg
             (ScalarBinOp (ScalarExprBase_ctor 2)
                (Scalar_ctor 1 2) (Scalar_ctor 3 2) std_plus) in
  (has_binary_node e = true
   -> evaluate Dynamic e [1]%float = Throws rows_mismatch)
  /\ (has_binary_node e = false
      -> exists v, evaluate Dynamic e [1]%float = Returns v).
Proof.
  intros e.
  apply (mismatch_raises_iff_binary_node e [1]%float);
    [reflexivity | cbn; lia].
Defined.

(** ** The overloads with a [double] operand *)




(** X7: negation and the unary wrappers keep the arity agreement of their
    operand, and so do the overloads with a [double] operand. *)
Theorem operators_keep_agreement (N : Z) (a : ScalarExpr) :
  arity_agrees N (operator_neg a) = arity_agrees N a
  /\ (forall g, arity_agrees N (unary_operator N g a) = arity_agrees N a)
  /\ (forall F c e, binary_operator_double_right N F a c = Returns e ->
        arity_agrees N e = arity_agrees N a)
  /\ (forall F c e, binary_operator_double_left N F c a = Returns e ->
        arity_agrees N e = arity_agrees N a).
Proof.
  assert (Hc : forall c,
             inner_size N (Scalar_ctor c (inner_size N a)) = inner_size N a).
  { intros c. unfold inner_size. cbn. destruct (N =? Dynamic); reflexivity. }
  split; [| split; [| split]].
  - assert (H : (inner_size N a =? inner_size N (operator_neg a)) = true)
      by (rewrite inner_size_operator_neg; apply Z.eqb_refl).
    unfold operator_neg, ScalarNegationOp_ctor, get in *.
    cbn [arity_agrees]. rewrite H. reflexivity.
  - intros g.
    assert (H : (inner_size N a =? inner_size N (unary_operator N g a)) = true)
      by (rewrite inner_size_unary_operator; apply Z.eqb_refl).
    unfold unary_operator, ScalarUnOp_ctor, get in *.
    cbn [arity_agrees]. rewrite H. reflexivity.
  - intros F c e He. unfold binary_operator_double_right, get in He.
    apply ScalarBinOp_ctor_inv in He. destruct He as [-> _].
    cbn [arity_agrees].
    rewrite (inner_size_copied N a
               (ScalarBinOp (ScalarExprBase_ctor (inner_size N a)) a
                  (Scalar_ctor c (inner_size N a)) F)) by reflexivity.
    rewrite Hc, Z.eqb_refl. cbn. apply andb_true_r.
  - intros F c e He. unfold binary_operator_double_left, get in He.
    apply ScalarBinOp_ctor_inv in He. destruct He as [-> _].
    cbn [arity_agrees].
    rewrite (inner_size_copied N (Scalar_ctor c (inner_size N a))
               (ScalarBinOp
                  (ScalarExprBase_ctor
                     (inner_size N (Scalar_ctor c (inner_size N a))))
                  (Scalar_ctor c (inner_size N a)) a F)) by reflexivity.
    rewrite Hc, !Z.eqb_refl. reflexivity.
Qed.

Lemma operators_keep_agreement_witness :
  let a := Scalar_ctor 6 2 in
  let e := ScalarBinOp (ScalarExprBase_ctor 2) a (Scalar_ctor 1 2) std_plus in
  arity_agrees Dynamic e = arity_agrees Dynamic a.
Proof.
  intros a e.
  exact (proj1 (proj2 (proj2 (operators_keep_agreement Dynamic a)))
           std_plus 1%float e eq_refl).
Defined.

(** ** Forwarding through a tree *)

Lemma forward_inv_leaf (mem : memory) (base : ScalarExprBase)
  (data_ : option address) (held : float) (i : Z) (e' : ScalarExpr) :
  forward mem (DiscretizedScalarField base data_ held) i = Returns e' ->
  exists v, deref_coeff mem data_ i 0 = Returns v
            /\ e' = DiscretizedScalarField base data_ v.
Proof.
  cbn [forward]. destruct (deref_coeff mem data_ i 0) as [v | w |];
    cbn [bind]; intros H; try discriminate H.
  exists v. split; [reflexivity | congruence].
Qed.

Lemma forward_inv_binary (mem : memory) (base : ScalarExprBase)
  (op1 op2 : ScalarExpr) (f : float -> float -> float) (i : Z)
  (e' : ScalarExpr) :
  forward mem (ScalarBinOp base op1 op2 f) i = Returns e' ->
  exists op1' op2',
    forward mem op1 i = Returns op1' /\ forward mem op2 i = Returns op2'
    /\ e' = ScalarBinOp base op1' op2' f.
Proof.
  cbn [forward]. destruct (forward mem op1 i) as [op1' | w |];
    cbn [bind]; intros H; try discriminate H.
  destruct (forward mem op2 i) as [op2' | w |];
    cbn [bind] in H; try discriminate H.
  exists op1', op2'. repeat split; congruence.
Qed.

Lemma forward_inv_negation (mem : memory) (base : ScalarExprBase)
  (op : ScalarExpr) (i : Z) (e' : ScalarExpr) :
  forward mem (ScalarNegationOp base op) i = Returns e' ->
  exists op', forward mem op i = Returns op'
              /\ e' = ScalarNegationOp base op'.
Proof.
  cbn [forward]. destruct (forward mem op i) as [op' | w |];
    cbn [bind]; intros H; try discriminate H.
  exists op'. split; congruence.
Qed.

(** The case analysis of a returning [forward], with the induction
    hypotheses applied to the operands. *)
Ltac forward_cases Hfw :=
  match type of Hfw with
  | forward _ (Scalar _ _) _ = Returns _ =>
      cbn [forward] in Hfw; injection Hfw as <-
  | forward _ (ScalarUnOp _ _ _) _ = Returns _ =>
      cbn [forward] in Hfw; injection Hfw as <-
  | forward _ (DiscretizedScalarField _ _ _) _ = Returns _ =>
      apply forward_inv_leaf in Hfw; destruct Hfw as [v' [Hv ->]]
  | forward _ (ScalarBinOp _ _ _ _) _ = Returns _ =>
      apply forward_inv_binary in Hfw;
      destruct Hfw as [op1' [op2' [H1 [H2 ->]]]]
  | forward _ (ScalarNegationOp _ _) _ = Returns _ =>
      apply forward_inv_negation in Hfw;
      destruct Hfw as [op1' [H1 ->]]
  end.

(** X8: [forward] never raises.  It returns exactly when every discretized
    leaf that is not below a generic unary node points to a table that has
    the row [i] with a column 0; otherwise the call reads outside of a table
    or through an unset pointer. *)
Theorem forward_defined (mem : memory) (e : ScalarExpr) (i : Z) :
  (forall what, forward mem e i <> Throws what)
  /\ ((exists e', forward mem e i = Returns e')
      <-> Forall (fun leaf => exists v,
                    deref_coeff mem (fst leaf) i 0 = Returns v)
            (forwarded_leaves e)).
Proof.
  assert (Hderef : forall d what, deref_coeff mem d i 0 <> Throws what).
  { intros d what. unfold deref_coeff, coeff.
    destruct d as [a |]; [| discriminate].
    destruct (mem a) as [m |]; [| discriminate].
    destruct ((0 <=? i) && (0 <=? 0)); [| discriminate].
    destruct (nth_error m (Z.to_nat i)) as [row |]; [| discriminate].
    destruct (nth_error row (Z.to_nat 0)); discriminate. }
  induction e as [b v | b d v | b e1 IH1 e2 IH2 f | b e1 IH1 f | b e1 IH1];
    cbn [forward forwarded_leaves].
  - split; [discriminate |]. split; [constructor | eexists; reflexivity].
  - split.
    + intros what. specialize (Hderef d what).
      destruct (deref_coeff mem d i 0); cbn [bind]; congruence.
    + split.
      * intros [e' He']. constructor; [| constructor]. cbn [fst].
        destruct (deref_coeff mem d i 0) as [x | w |]; cbn [bind] in He';
          try discriminate He'. exists x. reflexivity.
      * intros Hall. inversion Hall as [| leaf rest [x Hx] _]; subst.
        cbn [fst] in Hx. rewrite Hx. eexists. reflexivity.
  - destruct IH1 as [T1 R1]. destruct IH2 as [T2 R2]. split.
    + intros what.
      destruct (forward mem e1 i) as [x | w |] eqn:E1; cbn [bind];
        [| exfalso; exact (T1 w eq_refl) | discriminate].
      destruct (forward mem e2 i) as [y | w |] eqn:E2; cbn [bind];
        [discriminate | exfalso; exact (T2 w eq_refl) | discriminate].
    + rewrite Forall_app, <- R1, <- R2. split.
      * intros [e' He'].
        destruct (forward mem e1 i) as [x | w |]; cbn [bind] in He';
          try discriminate He'.
        destruct (forward mem e2 i) as [y | w |]; cbn [bind] in He';
          try discriminate He'.
        split; eexists; reflexivity.
      * intros [[x Hx] [y Hy]]. rewrite Hx, Hy. eexists. reflexivity.
  - split; [discriminate |]. split; [constructor | eexists; reflexivity].
  - destruct IH1 as [T1 R1]. split.
    + intros what.
      destruct (forward mem e1 i) as [x | w |] eqn:E1; cbn [bind];
        [discriminate | exfalso; exact (T1 w eq_refl) | discriminate].
    + rewrite <- R1. split.
      * intros [e' He'].
        destruct (forward mem e1 i) as [x | w |]; cbn [bind] in He';
          try discriminate He'. eexists. reflexivity.
      * intros [x Hx]. rewrite Hx. eexists. reflexivity.
Qed.

(** X9: after a [forward(i)] that returned, every discretized leaf that is
    not below a generic unary node holds the entry at row [i], column 0 of
    the table it points to, the pointers are the ones of before, and the
    leaves below a generic unary node hold the values of before. *)
Theorem forward_values (mem : memory) (e e' : ScalarExpr) (i : Z) :
  forward mem e i = Returns e' ->
  Forall (fun leaf => deref_coeff mem (fst leaf) i 0 = Returns (snd leaf))
    (forwarded_leaves e')
  /\ map fst (forwarded_leaves e') = map fst (forwarded_leaves e)
  /\ skipped_values e' = skipped_values e.
Proof.
  revert e'.
  induction e as [b v | b d v | b e1 IH1 e2 IH2 f | b e1 IH1 f | b e1 IH1];
    intros e' Hfw; forward_cases Hfw;
    cbn [forwarded_leaves skipped_values].
  - repeat split. constructor.
  - repeat split. constructor; [exact Hv | constructor].
  - destruct (IH1 _ H1) as [A1 [B1 C1]]. destruct (IH2 _ H2) as [A2 [B2 C2]].
    rewrite Forall_app, !map_app, B1, B2, C1, C2. repeat split; assumption.
  - repeat split. constructor.
  - exact (IH1 _ H1).
Qed.

Lemma forward_values_witness :
  let mem : memory :=
    fun a => if Nat.eqb a 0 then Some [[10]; [20]; [30]]%float
             else if Nat.eqb a 1 then Some [[1]; [2]; [3]]%float
             else None in
  let e := ScalarBinOp (ScalarExprBase_ctor 2)
             (operator_neg (DiscretizedScalarField_ctor 0%nat))
             (ScalarBinOp (ScalarExprBase_ctor 2)
                (unary_operator 2 (fun x => x) (DiscretizedScalarField_ctor 0%nat))
                (DiscretizedScalarField_ctor 1%nat) std_plus)
             std_multiplies in
  let e' := ScalarBinOp (ScalarExprBase_ctor 2)
             (ScalarNegationOp (ScalarExprBase_ctor 0)
                (DiscretizedScalarField ScalarExprBase_default (Some 0%nat) 30))
             (ScalarBinOp (ScalarExprBase_ctor 2)
                (unary_operator 2 (fun x => x) (DiscretizedScalarField_ctor 0%nat))
                (DiscretizedScalarField ScalarExprBase_default (Some 1%nat) 3)
                std_plus)
             std_multiplies in
  Forall (fun leaf => deref_coeff mem (fst leaf) 2 0 = Returns (snd leaf))
    (forwarded_leaves e')
  /\ map fst (forwarded_leaves e') = map fst (forwarded_leaves e)
  /\ skipped_values e' = skipped_values e.
Proof.
  intros mem e e'.
  apply (forward_values mem e e' 2). reflexivity.
Defined.

Lemma forward_base_of (mem : memory) (e e' : ScalarExpr) (i : Z) :
  forward mem e i = Returns e' -> base_of e' = base_of e.
Proof.
  destruct e as [b v | b d v | b e1 e2 f | b e1 f | b e1]; intros Hfw;
    forward_cases Hfw; reflexivity.
Qed.

Lemma forward_binary_nodes_accept (mem : memory) (e : ScalarExpr) (i r : Z) :
  forall e', forward mem e i = Returns e' ->
             binary_nodes_accept e' r = binary_nodes_accept e r.
Proof.
  induction e as [b v | b d v | b e1 IH1 e2 IH2 f | b e1 IH1 f | b e1 IH1];
    intros e' Hfw; forward_cases Hfw;
    cbn [binary_nodes_accept]; try reflexivity.
  - rewrite (IH1 _ H1), (IH2 _ H2). reflexivity.
  - exact (IH1 _ H1).
Qed.

Lemma forward_arity_agrees (mem : memory) (N : Z) (e : ScalarExpr) (i : Z) :
  forall e', forward mem e i = Returns e' ->
             arity_agrees N e' = arity_agrees N e.
Proof.
  induction e as [b v | b d v | b e1 IH1 e2 IH2 f | b e1 IH1 f | b e1 IH1];
    intros e' Hfw; forward_cases Hfw;
    cbn [arity_agrees]; try reflexivity.
  - rewrite (IH1 _ H1), (IH2 _ H2). unfold inner_size.
    rewrite (forward_base_of mem e1 op1' i H1),
      (forward_base_of mem e2 op2' i H2).
    reflexivity.
  - rewrite (IH1 _ H1). unfold inner_size.
    rewrite (forward_base_of mem e1 op1' i H1). reflexivity.
Qed.

(** X10: a [forward] that returned changed neither the arity and the step
    that the node reports, nor the arity agreement of the tree, nor the
    points at which its evaluation raises. *)
Theorem forward_keeps_shape (mem : memory) (N : Z) (e e' : ScalarExpr)
  (i : Z) :
  forward mem e i = Returns e' ->
  inner_size N e' = inner_size N e
  /\ step e' = step e
  /\ arity_agrees N e' = arity_agrees N e
  /\ (forall p what,
        evaluate N e' p = Throws what <-> evaluate N e p = Throws what).
Proof.
  intros Hfw. pose proof (forward_base_of mem e e' i Hfw) as Hb.
  split; [unfold inner_size; rewrite Hb; reflexivity |].
  split; [unfold step; rewrite Hb; reflexivity |].
  split; [exact (forward_arity_agrees mem N e i e' Hfw) |].
  intros p what.
  destruct (Z.eq_dec N Dynamic) as [-> | HN].
  - rewrite !evaluate_accept,
      (forward_binary_nodes_accept mem e i (rows p) e' Hfw).
    assert (H0 : 0 <> Dynamic) by (unfold Dynamic; lia).
    destruct (binary_nodes_accept e (rows p)); [| reflexivity].
    destruct (evaluate_static_Returns 0 e p H0) as [v ->].
    destruct (evaluate_static_Returns 0 e' p H0) as [v' ->].
    split; intros H; discriminate H.
  - destruct (evaluate_static_Returns N e p HN) as [v ->].
    destruct (evaluate_static_Returns N e' p HN) as [v' ->].
    split; intros H; discriminate H.
Qed.

Lemma forward_keeps_shape_witness :
  let mem : memory :=
    fun a => if Nat.eqb a 0 then Some [[10]; [20]; [30]]%float else None in
  let e := ScalarBinOp (ScalarExprBase_ctor 2)
             (DiscretizedScalarField (ScalarExprBase_ctor 2) (Some 0%nat) 0)
             (Scalar_ctor 1 2) std_plus in
  let e' := ScalarBinOp (ScalarExprBase_ctor 2)
              (DiscretizedScalarField (ScalarExprBase_ctor 2) (Some 0%nat) 20)
              (Scalar_ctor 1 2) std_plus in
  inner_size Dynamic e' = inner_size Dynamic e
  /\ step e' = step e
  /\ arity_agrees Dynamic e' = arity_agrees Dynamic e
  /\ (forall p what,
        evaluate Dynamic e' p = Throws what
        <-> evaluate Dynamic e p = Throws what).
Proof.
  intros mem e e'.
  apply (forward_keeps_shape mem Dynamic e e' 1). reflexivity.
Defined.

(** X11: the last [forward] decides: after a [forward(i)] that returned, a
    [forward(j)] has the outcome it would have had without the first call;
    in particular a second [forward(i)] changes nothing. *)
Theorem forward_last_wins (mem : memory) (e e1 : ScalarExpr) (i j : Z) :
  forward mem e i = Returns e1 ->
  forward mem e1 j = forward mem e j
  /\ forward mem e1 i = Returns e1.
Proof.
  intros Hfw.
  assert (Hlast : forall k, forward mem e1 k = forward mem e k).
  { intros k. revert e1 Hfw.
    induction e as [b v | b d v | b e1' IH1 e2 IH2 f | b e1' IH1 f | b e1' IH1];
      intros e1 Hfw; forward_cases Hfw;
      cbn [forward]; try reflexivity.
    - rewrite (IH1 _ H1), (IH2 _ H2). reflexivity.
    - rewrite (IH1 _ H1). reflexivity. }
  split; [apply Hlast |]. rewrite Hlast. exact Hfw.
Qed.

Lemma forward_last_wins_witness :
  let mem : memory :=
    fun a => if Nat.eqb a 0 then Some [[10]; [20]; [30]]%float else None in
  let e := operator_neg (DiscretizedScalarField_ctor 0%nat) in
  let e1 := ScalarNegationOp (ScalarExprBase_ctor 0)
              (DiscretizedScalarField ScalarExprBase_default (Some 0%nat) 20) in
  forward mem e1 2 = forward mem e 2
  /\ forward mem e1 1 = Returns e1.
Proof.
  intros mem e e1.
  apply (forward_last_wins mem e e1 1 2). reflexivity.
Defined.

(** X12: on a tree in which no discretized leaf is reached (none at all, or
    all of them below generic unary nodes) [forward] returns the tree as it
    is, whatever the index and the tables. *)
Theorem forward_without_leaves (mem : memory) (e : ScalarExpr) (i : Z) :
  forwarded_leaves e = [] -> forward mem e i = Returns e.
Proof.
  induction e as [b v | b d v | b e1 IH1 e2 IH2 f | b e1 IH1 f | b e1 IH1];
    cbn [forwarded_leaves forward]; intros Hnone; try reflexivity.
  - discriminate Hnone.
  - apply app_eq_nil in Hnone. destruct Hnone as [H1 H2].
    rewrite (IH1 H1), (IH2 H2). reflexivity.
  - rewrite (IH1 Hnone). reflexivity.
Qed.

Lemma forward_without_leaves_witness :
  let e := ScalarBinOp (ScalarExprBase_ctor 2)
             (unary_operator 2 (fun x => x) DiscretizedScalarField_default)
             (Scalar_ctor 1 2) std_plus in
  forward (fun _ => None) e 5 = Returns e.
Proof.
  intros e.
  apply (forward_without_leaves (fun _ => None) e 5). reflexivity.
Defined.

(** ** Resizing and the step *)

(** X13: [resize] writes the runtime arity of the node it is called on and
    leaves its operands as they are: a binary node whose first operand is a
    binary node of arity [m], resized to another arity, reports the new
    arity and raises at every point, at its own assertion or at the one of
    the operand. *)
Theorem resize_leaves_operands (b b1 : ScalarExprBase)
  (x y op2 : ScalarExpr) (g f : float -> float -> float) (n : Z)
  (p : VectorType) :
  n <> dynamic_inner_size_ b1 ->
  exists e',
    resize Dynamic (ScalarBinOp b (ScalarBinOp b1 x y g) op2 f) n = Some e'
    /\ inner_size Dynamic e' = n
    /\ evaluate Dynamic e' p = Throws rows_mismatch.
Proof.
  intros Hn. eexists. split; [reflexivity |]. split; [reflexivity |].
  rewrite evaluate_accept. cbn [with_base binary_nodes_accept].
  cbn [dynamic_inner_size_].
  destruct (Z.eqb_spec (rows p) n) as [-> | Hp]; [| reflexivity].
  apply Z.eqb_neq in Hn. rewrite Hn. reflexivity.
Qed.

Lemma resize_leaves_operands_witness :
  exists e',
    resize Dynamic
      (ScalarBinOp (ScalarExprBase_ctor 2)
         (ScalarBinOp (ScalarExprBase_ctor 2)
            (Scalar_ctor 1 2) (Scalar_ctor 2 2) std_plus)
         (Scalar_ctor 3 2) std_multiplies) 3 = Some e'
    /\ inner_size Dynamic e' = 3
    /\ evaluate Dynamic e' [0; 0; 0]%float = Throws rows_mismatch.
Proof.
  apply (resize_leaves_operands (ScalarExprBase_ctor 2) (ScalarExprBase_ctor 2)
           (Scalar_ctor 1 2) (Scalar_ctor 2 2) (Scalar_ctor 3 2)
           std_plus std_multiplies 3 [0; 0; 0]%float).
  cbn. lia.
Defined.

Lemma evaluate_with_base (N : Z) (e : ScalarExpr) (base : ScalarExprBase)
  (p : VectorType) :
  dynamic_inner_size_ base = dynamic_inner_size_ (base_of e) ->
  evaluate N (with_base base e) p = evaluate N e p.
Proof.
  intros Hb. destruct e; cbn [with_base evaluate]; try reflexivity.
  unfold inner_size. cbn [base_of]. cbn [base_of] in Hb. rewrite Hb.
  reflexivity.
Qed.

(** X14: [set_step] changes the step that the node reports and nothing of
    its evaluation or arity; a node that the overload layer builds on the
    expression does not take the step over: it reports the default
    [1e-3]. *)
Theorem step_not_inherited (N : Z) (e : ScalarExpr) (h : float) :
  step (set_step e h) = h
  /\ inner_size N (set_step e h) = inner_size N e
  /\ (forall p, evaluate N (set_step e h) p = evaluate N e p)
  /\ step (operator_neg (set_step e h)) = default_step
  /\ (forall g, step (unary_operator N g (set_step e h)) = default_step)
  /\ (forall F b c, binary_operator N F (set_step e h) b = Returns c ->
        step c = default_step)
  /\ (forall F d c,
        binary_operator_double_right N F (set_step e h) d = Returns c ->
        step c = default_step).
Proof.
  split; [destruct e; reflexivity |].
  split; [unfold inner_size; destruct e; reflexivity |].
  split; [intros p; apply evaluate_with_base; reflexivity |].
  split; [reflexivity |].
  split; [reflexivity |].
  split.
  - intros F b c Hc. unfold binary_operator, get in Hc.
    apply ScalarBinOp_ctor_inv in Hc. destruct Hc as [-> _]. reflexivity.
  - intros F d c Hc. unfold binary_operator_double_right, get in Hc.
    apply ScalarBinOp_ctor_inv in Hc. destruct Hc as [-> _]. reflexivity.
Qed.

Lemma step_not_inherited_witness :
  let e := Scalar_ctor 1 2 in
  let c := ScalarBinOp (ScalarExprBase_ctor 2) (set_step e 0.5)
             (Scalar_ctor 3 2) std_plus in
  step c = default_step.
Proof.
  intros e c.
  exact (proj1 (proj2 (proj2 (proj2 (proj2 (proj2
           (step_not_inherited Dynamic e 0.5%float))))))
           std_plus (Scalar_ctor 3 2) c eq_refl).
Defined.

(** ** Discretized fields under dynamic arity *)

(** X15: a discretized field is constructed with the runtime arity 0.
    Under dynamic arity, composing it with an operand of another arity
    raises at construction; once it is resized to the arity of the operand
    the composition returns a node. *)
Theorem discretized_field_dynamic_arity (data : address) (b : ScalarExpr)
  (F : float -> float -> float) :
  inner_size Dynamic b <> 0 ->
  inner_size Dynamic (DiscretizedScalarField_ctor data) = 0
  /\ binary_operator Dynamic F (DiscretizedScalarField_ctor data) b
     = Throws "Condition op1_.inner_size() == op2_.inner_size() failed"
  /\ exists leaf c,
       resize Dynamic (DiscretizedScalarField_ctor data)
         (inner_size Dynamic b) = Some leaf
       /\ binary_operator Dynamic F leaf b = Returns c.
Proof.
  intros Hb. split; [reflexivity |]. split.
  - apply ScalarBinOp_ctor_Throws. cbn. intros H. apply Hb.
    symmetry. exact H.
  - eexists. eexists. split; [reflexivity |].
    unfold binary_operator, get. apply ScalarBinOp_ctor_Returns. reflexivity.
Qed.

Lemma discretized_field_dynamic_arity_witness :
  inner_size Dynamic (DiscretizedScalarField_ctor 0%nat) = 0
  /\ binary_operator Dynamic std_plus (DiscretizedScalarField_ctor 0%nat)
       (Scalar_ctor 1 2)
     = Throws "Condition op1_.inner_size() == op2_.inner_size() failed"
  /\ exists leaf c,
       resize Dynamic (DiscretizedScalarField_ctor 0%nat)
         (inner_size Dynamic (Scalar_ctor 1 2)) = Some leaf
       /\ binary_operator Dynamic std_plus leaf (Scalar_ctor 1 2) = Returns c.
Proof.
  apply (discretized_field_dynamic_arity 0%nat (Scalar_ctor 1 2) std_plus).
  cbn. lia.
Defined.

(** ** Negation and the arithmetic of [double] *)

Lemma operator_neg_evaluate_eq (N : Z) (a : ScalarExpr) (p : VectorType) :
  evaluate N (operator_neg a) p = lift1 PrimFloat.opp (evaluate N a p).
Proof. reflexivity. Qed.

(** The two facts of binary64 arithmetic used below, read off the
    specification of the primitive operations ([PrimFloat] has one NaN). *)
Lemma float_opp_involutive (x : float) : (- - x)%float = x.
Proof.
  rewrite <- (SF2Prim_Prim2SF (- - x)), !opp_spec.
  rewrite <- (SF2Prim_Prim2SF x) at 2. f_equal.
  destruct (Prim2SF x) as [s | s | | s m e]; cbn;
    try rewrite negb_involutive; reflexivity.
Qed.

Lemma float_sub_add_opp (x y : float) : (x - y)%float = (x + - y)%float.
Proof.
  rewrite <- (SF2Prim_Prim2SF (x - y)), <- (SF2Prim_Prim2SF (x + - y)).
  rewrite sub_spec, add_spec, opp_spec. f_equal.
  unfold SF64sub, SF64add.
  destruct (Prim2SF x) as [s | s | | s m e],
    (Prim2SF y) as [s' | s' | | s' m' e'];
    cbn; try reflexivity.
  - destruct s, s'; reflexivity.
  - destruct s, s'; reflexivity.
  - f_equal. destruct s'; cbn [SpecFloat.cond_Zopp negb];
      change (IntDef.Z.sub ?a ?b) with (Z.sub a b);
      change (IntDef.Z.add ?a ?b) with (Z.add a b);
      change (IntDef.Z.opp ?a) with (Z.opp a); lia.
Qed.

Lemma evaluate_built_binary (N : Z) (a x y : ScalarExpr)
  (f : float -> float -> float) (p : VectorType) :
  evaluate N (ScalarBinOp (ScalarExprBase_ctor (inner_size N a)) x y f) p
  = ((if N =? Dynamic
      then fdapde_assert (rows p =? inner_size N a)
             "p.rows() == Base::inner_size()"
      else Returns tt) ;;;
     lift2 f (evaluate N x p) (evaluate N y p)).
Proof.
  cbn [evaluate].
  rewrite (inner_size_copied N a
             (ScalarBinOp (ScalarExprBase_ctor (inner_size N a)) x y f))
    by reflexivity.
  reflexivity.
Qed.

(** X16: negating an expression twice gives an expression of the same
    arity that has, at every point, the outcome of the expression itself. *)
Theorem double_negation (N : Z) (a : ScalarExpr) (p : VectorType) :
  evaluate N (operator_neg (operator_neg a)) p = evaluate N a p
  /\ inner_size N (operator_neg (operator_neg a)) = inner_size N a.
Proof.
  split.
  - rewrite !operator_neg_evaluate_eq. unfold lift1.
    destruct (evaluate N a p) as [x | w |]; cbn [bind]; try reflexivity.
    rewrite float_opp_involutive. reflexivity.
  - rewrite !inner_size_operator_neg. reflexivity.
Qed.

(** X17: where [a - b] is constructed, [a + (-b)] is constructed too, and
    the two nodes have the same outcome at every point. *)
Theorem minus_is_plus_negation (N : Z) (a b c : ScalarExpr) :
  operator_minus N a b = Returns c ->
  exists d, operator_plus N a (operator_neg b) = Returns d
            /\ forall p, evaluate N d p = evaluate N c p.
Proof.
  unfold operator_minus, operator_plus, binary_operator, get. intros Hc.
  apply ScalarBinOp_ctor_inv in Hc. destruct Hc as [-> Hab].
  rewrite ScalarBinOp_ctor_Returns
    by (rewrite inner_size_operator_neg; exact Hab).
  eexists. split; [reflexivity |]. intros p.
  rewrite !evaluate_built_binary.
  destruct (if N =? Dynamic
            then fdapde_assert (rows p =? inner_size N a)
                   "p.rows() == Base::inner_size()"
            else Returns tt) as [[] | w |]; cbn [bind]; try reflexivity.
  rewrite operator_neg_evaluate_eq. unfold lift2, lift1.
  destruct (evaluate N a p) as [x | w |]; cbn [bind]; try reflexivity.
  destruct (evaluate N b p) as [y | w |]; cbn [bind]; try reflexivity.
  unfold std_plus, std_minus. rewrite float_sub_add_opp. reflexivity.
Qed.

Lemma minus_is_plus_negation_witness :
  let a := Scalar_ctor 5 2 in
  let b := Scalar_ctor 3 2 in
  let c := ScalarBinOp (ScalarExprBase_ctor 2) a b std_minus in
  exists d, operator_plus Dynamic a (operator_neg b) = Returns d
            /\ forall p, evaluate Dynamic d p = evaluate Dynamic c p.
Proof.
  intros a b c.
  apply (minus_is_plus_negation Dynamic a b c). reflexivity.
Defined.
